(** * Prompt templates of the RAG chatbot backend

    A shallow embedding of [app/services/llm/prompt_templates.py]:
    the conversation-history helpers ([build_messages],
    [truncate_conversation_history]), the context formatter
    ([format_context_from_results]) and the two prompt formatters
    ([format_system_prompt], [format_user_prompt]).

    Python values are modelled as the code uses them: a message is a
    [Dict[str, str]], here a [gmap string string]; a history is a list of
    messages; [max_messages] is a Python [int], here a [Z]; an optional
    argument defaulting to [None] is an [option]. *)

From Stdlib Require Import ZArith Lia Ascii.
From stdpp Require Import base tactics option list strings gmap pretty.

Local Open Scope Z_scope.

(** ** Python built-ins used by the module *)

Module Py.

(** [l[start:]] for an arbitrary integer [start]: a negative start counts
    from the end, and both ends are clamped to the list. *)
Definition slice_from {A} (start : Z) (l : list A) : list A :=
  let len := Z.of_nat (length l) in
  let lo := if start <? 0 then Z.max 0 (start + len) else Z.min start len in
  drop (Z.to_nat lo) l.

(** Truthiness of a [dict]: empty dictionaries are falsy. *)
Definition dict_truthy {V} (d : gmap string V) : bool :=
  bool_decide (d ≠ ∅).

(** Truthiness of a [list]. *)
Definition list_truthy {A} (l : list A) : bool :=
  match l with [] => false | _ :: _ => true end.

(** [d.get(key, default)]. *)
Definition dict_get {V} (d : gmap string V) (key : string) (dflt : V) : V :=
  match d !! key with
  | Some v => v
  | None => dflt
  end.

End Py.

(** ** Messages and histories *)

(** A message is a [Dict[str, str]]; the keys the module reads and writes
    are ["role"] and ["content"]. *)
Abbreviation message := (gmap string string).

Definition mk_message (role content : string) : message :=
  <["role" := role]> (<["content" := content]> ∅).

(** ** [build_messages] *)

Definition build_messages (system_prompt user_prompt : string)
    (conversation_history : option (list message)) : list message :=
  let messages := [mk_message "system" system_prompt] in
  let messages :=
    match conversation_history with
    | Some h => if Py.list_truthy h then messages ++ h else messages
    | None => messages
    end in
  messages ++ [mk_message "user" user_prompt].

(** ** [truncate_conversation_history] *)

(** The state of the partitioning loop: the local variables
    [system_msg] and [other_msgs]. *)
Record partition_state := PState {
  system_msg : option message;
  other_msgs : list message
}.

(** One iteration of [for msg in history]. *)
Definition partition_step (st : partition_state) (msg : message)
    : partition_state :=
  if decide (msg !! "role" = Some "system") then
    PState (Some msg) (other_msgs st)
  else if decide (is_Some (msg !! "role")) then
    PState (system_msg st) (other_msgs st ++ [msg])
  else
    st.

Definition partition_history (history : list message) : partition_state :=
  foldl partition_step (PState None []) history.

Definition truncate_conversation_history (history : list message)
    (max_messages : Z) : list message :=
  if negb (Py.list_truthy history) then []
  else
    let st := partition_history history in
    let others :=
      if Z.of_nat (length (other_msgs st)) >? max_messages
      then Py.slice_from (- max_messages) (other_msgs st)
      else other_msgs st in
    let result :=
      match system_msg st with
      | Some m => if Py.dict_truthy m then [m] else []
      | None => []
      end in
    result ++ others.

(** The default of the [max_messages] parameter. *)
Definition default_max_messages : Z := 10.

(** ** Vocabulary for the statements about histories *)

(** [msg.get("role") == "system"] *)
Definition is_system (m : message) : Prop := m !! "role" = Some "system".
(** ["role" in msg] *)
Definition has_role (m : message) : Prop := is_Some (m !! "role").
(** The messages the loop appends to [other_msgs]. *)
Definition is_other (m : message) : Prop := has_role m ∧ ¬ is_system m.

#[global] Instance is_system_dec m : Decision (is_system m) :=
  decide (m !! "role" = Some "system").
#[global] Instance has_role_dec m : Decision (has_role m) :=
  decide (is_Some (m !! "role")).
#[global] Instance is_other_dec m : Decision (is_other m) :=
  decide (has_role m ∧ ¬ is_system m).

(** The non-system, role-bearing messages of a history, in order. *)
Definition others_of (history : list message) : list message :=
  filter is_other history.

(** The system messages of a history, in order. *)
Definition systems_of (history : list message) : list message :=
  filter is_system history.

(** What the conditional slice [other_msgs[-max_messages:]] leaves in
    [other_msgs]. *)
Definition keep_recent (n : Z) (others : list message) : list message :=
  if Z.of_nat (length others) >? n then Py.slice_from (- n) others else others.

(** The retained system message, as the list [result] starts with. *)
Definition system_part (h : list message) : list message :=
  match last (systems_of h) with Some s => [s] | None => [] end.

(** ** Strings *)

(** The newline and the double quote, by their character codes. *)
Definition nl : string := String "010"%char EmptyString.
Definition dq : string := String "034"%char EmptyString.

(** Concatenation of a list of strings, nested to the right. *)
Fixpoint concat_strings (parts : list string) : string :=
  match parts with
  | [] => EmptyString
  | p :: ps => p +:+ concat_strings ps
  end.

(** [sep.join(parts)] *)
Fixpoint str_join (sep : string) (parts : list string) : string :=
  match parts with
  | [] => EmptyString
  | p :: ps =>
      match ps with
      | [] => p
      | _ :: _ => p +:+ sep +:+ str_join sep ps
      end
  end.

(** [s * n] *)
Fixpoint str_repeat (s : string) (n : nat) : string :=
  match n with
  | O => EmptyString
  | S k => s +:+ str_repeat s k
  end.

(** [enumerate(l, start)] *)
Fixpoint enumerate {A} (start : nat) (l : list A) : list (nat * A) :=
  match l with
  | [] => []
  | x :: xs => (start, x) :: enumerate (S start) xs
  end.

(** ** Retrieval results *)

(** Modelled from the spec: the class [RetrievalResult] is imported from
    [app.services.rag.retriever], which is not among the sources. The spec
    gives it a [text] (string), a [score] (numeric relevance) and a
    [metadata] mapping with the keys [file_name] and [chunk_index]. The
    metadata values are taken to be strings or integers, the score a finite
    binary floating-point number. *)
Inductive py_value :=
  | PyStr (s : string)
  | PyInt (z : Z).

(** [str(v)], as an f-string field without a format specification renders
    a value. *)
Definition py_str (v : py_value) : string :=
  match v with
  | PyStr s => s
  | PyInt z => pretty z
  end.

(** A finite float: [(-1)^f_neg * f_mant * 2^f_exp]. The sign is kept apart
    from the magnitude because formatting prints the sign of a negative
    zero. *)
Record py_float := PyFloat {
  f_neg : bool;
  f_mant : N;
  f_exp : Z
}.

Record RetrievalResult := {
  text : string;
  score : py_float;
  metadata : gmap string py_value
}.

(** ** Fixed-point formatting, [format(x, ".3f")] *)

(** [num / den] rounded to the nearest integer, ties to the even one
    (for [0 ≤ num] and [0 < den]): the conversion is correctly rounded. *)
Definition round_half_even (num den : Z) : Z :=
  let q := num / den in
  let r := num mod den in
  if 2 * r <? den then q
  else if 2 * r >? den then q + 1
  else if Z.even q then q else q + 1.

(** The magnitude of [x], in thousandths, rounded. *)
Definition thousandths (x : py_float) : Z :=
  let m := Z.of_N (f_mant x) in
  if 0 <=? f_exp x then m * 2 ^ f_exp x * 1000
  else round_half_even (m * 1000) (2 ^ (- f_exp x)).

Definition digit_char (d : Z) : ascii :=
  Ascii.ascii_of_N (48 + Z.to_N d).

(** Three decimal digits of [0 ≤ n < 1000], zero-padded. *)
Definition digits3 (n : Z) : string :=
  String (digit_char (n / 100))
    (String (digit_char (n / 10 mod 10))
       (String (digit_char (n mod 10)) EmptyString)).

Definition format_3f (x : py_float) : string :=
  let t := thousandths x in
  (if f_neg x then "-" else EmptyString)
    +:+ pretty (t / 1000) +:+ "." +:+ digits3 (t mod 1000).

(** ** [format_context_from_results] *)

(** The f-string that formats one document chunk. *)
Definition context_part (idx : nat) (result : RetrievalResult) : string :=
  let file_name :=
    Py.dict_get (metadata result) "file_name" (PyStr "Unknown") in
  let chunk_index :=
    Py.dict_get (metadata result) "chunk_index" (PyStr "N/A") in
  let score := score result in
  concat_strings [
    "Document "; pretty idx; " (Source: "; py_str file_name;
    ", Chunk: "; py_str chunk_index; ", Relevance: "; format_3f score; "):"; nl;
    text result
  ].

(** One iteration of [for idx, result in enumerate(results, 1)], on the
    local variable [context_parts]. *)
Definition context_step (context_parts : list string)
    (item : nat * RetrievalResult) : list string :=
  context_parts ++ [context_part item.1 item.2].

Definition format_context_from_results (results : list RetrievalResult)
    : string :=
  if negb (Py.list_truthy results) then "No relevant context found."
  else
    let context_parts := foldl context_step [] (enumerate 1 results) in
    ((nl +:+ nl) +:+ str_repeat "-" 80) +:+ str_join (nl +:+ nl) context_parts.

(** ** [str.format] with keyword arguments *)

Inductive py_error :=
  | KeyError (key : string)
  | IndexError
  | ValueError (msg : string)
  | NotModelled.

Inductive result (A : Type) :=
  | Ok (a : A)
  | Raise (e : py_error).
Arguments Ok {A} a.
Arguments Raise {A} e.

(** Where the scanner of the format string stands. *)
Inductive scan_state :=
  | InText
  | AfterOpen                 (* a [{] was read in the text *)
  | AfterClose                (* a [}] was read in the text *)
  | InField (name : string).  (* inside a replacement field *)

Definition is_digit (c : ascii) : bool :=
  let n := Ascii.N_of_ascii c in ((48 <=? n) && (n <=? 57))%N.

Fixpoint all_digits (s : string) : bool :=
  match s with
  | EmptyString => true
  | String c s' => is_digit c && all_digits s'
  end.

(** Characters that start an attribute, an index, a conversion, a format
    specification or a nested field: none of them occurs in the templates
    of this module, and the model does not interpret them. *)
Definition field_special (c : ascii) : bool :=
  bool_decide (c ∈ ["."; "["; "!"; ":"; "{"]%char).

Definition prepend (c : ascii) (r : result string) : result string :=
  match r with
  | Ok s => Ok (String c s)
  | Raise e => Raise e
  end.

Definition prepend_str (v : string) (r : result string) : result string :=
  match r with
  | Ok s => Ok (v +:+ s)
  | Raise e => Raise e
  end.

(** The scan of [template.format] with keyword arguments, left to right: text is
    copied, [{{] and [}}] stand for one brace, and a field [{name}] is
    replaced by [kwargs[name]]. The first error met is raised. A field
    with an empty or numeric name asks for a positional argument, and
    there is none. *)
Fixpoint format_scan (kwargs : string → option string) (st : scan_state)
    (template : string) : result string :=
  match template with
  | EmptyString =>
      match st with
      | InText => Ok EmptyString
      | AfterOpen => Raise (ValueError "Single '{' encountered in format string")
      | AfterClose => Raise (ValueError "Single '}' encountered in format string")
      | InField _ => Raise (ValueError "expected '}' before end of string")
      end
  | String c rest =>
      match st with
      | InText =>
          if Ascii.eqb c "{" then format_scan kwargs AfterOpen rest
          else if Ascii.eqb c "}" then format_scan kwargs AfterClose rest
          else prepend c (format_scan kwargs InText rest)
      | AfterOpen =>
          if Ascii.eqb c "{" then prepend c (format_scan kwargs InText rest)
          else if Ascii.eqb c "}" then Raise IndexError
          else if field_special c then Raise NotModelled
          else format_scan kwargs (InField (String c EmptyString)) rest
      | AfterClose =>
          if Ascii.eqb c "}" then prepend c (format_scan kwargs InText rest)
          else Raise (ValueError "Single '}' encountered in format string")
      | InField name =>
          if Ascii.eqb c "}" then
            if all_digits name then Raise IndexError
            else
              match kwargs name with
              | Some v => prepend_str v (format_scan kwargs InText rest)
              | None => Raise (KeyError name)
              end
          else if field_special c then Raise NotModelled
          else format_scan kwargs (InField (name +:+ String c EmptyString)) rest
      end
  end.

Definition str_format (template : string) (kwargs : gmap string string)
    : result string :=
  format_scan (λ name, kwargs !! name) InText template.

(** ** The prompt templates *)

(** The text of [SYSTEM_PROMPT] around its replacement fields; the template
    itself is this text with the fields left in place. *)
Definition system_prompt_text (company_name context : string) : string :=
  concat_strings [
    "You are a helpful assistant for "; company_name; "."; nl;
    nl;
    "IMPORTANT RULES:"; nl;
    "1. **Casual conversation & Persona** (greetings, closings like "; dq; "bye"; dq; " or "; dq; "thank you"; dq; ", "; dq; "how are you"; dq; ", your identity, basic company info):"; nl;
    "   - Respond naturally like a helpful human assistant"; nl;
    "   - Be warm, friendly, and highly conversational"; nl;
    "   - Example (greeting): "; dq; "I'm doing well, thank you! How can I assist you today?"; dq; nl;
    "   - Example (closing): "; dq; "You're very welcome! Have a great day!"; dq; " or "; dq; "Goodbye! Feel free to reach out if you need anything else."; dq; nl;
    "   - Don't mention you're an AI unless specifically asked"; nl;
    "   - Your name is MHK Nova, and you are a helpful AI assistant built for "; company_name; ". (Answer questions like "; dq; "who are you"; dq; ", "; dq; "what is MHK Nova"; dq; " using this info directly)."; nl;
    "   - Mr. Rajesh is the CEO of the company. (Answer questions about the CEO using this info directly)."; nl;
    nl;
    "2. **Factual/informational questions (excluding persona info above)**: ONLY use the Context below."; nl;
    "   - No context or answer not found → "; dq; "I don't have that information. Please ask about "; company_name; "'s services or products."; dq; nl;
    "   - Never use general knowledge or make assumptions"; nl;
    nl;
    "3. **When using Context**: Be clear, concise, and cite sources."; nl;
    nl;
    "Context:"; nl;
    context
  ].

Definition SYSTEM_PROMPT : string :=
  system_prompt_text "{company_name}" "{context}".

(** The text of [USER_PROMPT] around its replacement field. *)
Definition user_prompt_text (query : string) : string :=
  concat_strings [
    "Question: "; query; nl;
    nl;
    "Please provide a helpful answer based on the context provided."
  ].

Definition USER_PROMPT : string := user_prompt_text "{query}".

(** ** [format_system_prompt], [format_user_prompt] *)

(** Neither function handles an exception: what [str.format] raises is
    what the call raises. *)
Definition format_system_prompt (company_name context : string)
    : result string :=
  str_format SYSTEM_PROMPT
    (<["company_name" := company_name]> (<["context" := context]> ∅)).

Definition format_user_prompt (query : string) : result string :=
  str_format USER_PROMPT (<["query" := query]> ∅).

(** ** Sample inputs *)

Definition sys_old : message := mk_message "system" "be terse".
Definition sys_new : message := mk_message "system" "be kind".
Definition usr (c : string) : message := mk_message "user" c.
Definition bot (c : string) : message := mk_message "assistant" c.
(** An entry without a ["role"] key. *)
Definition no_role : message := <["content" := "stray"]> ∅.

Definition sample_history : list message :=
  [sys_old; usr "1"; bot "2"; no_role; sys_new; usr "3"; bot "4"; usr "5"].

Definition doc_a : RetrievalResult :=
  {| text := "alpha"; score := PyFloat false 3 (-2);
     metadata := <["file_name" := PyStr "a.pdf"]> (<["chunk_index" := PyInt 0]> ∅) |}.
Definition doc_b : RetrievalResult :=
  {| text := "beta"; score := PyFloat false 1 (-4);
     metadata := <["file_name" := PyStr "b.pdf"]> (<["chunk_index" := PyInt 7]> ∅) |}.
Definition doc_bare : RetrievalResult :=
  {| text := "gamma"; score := PyFloat false 1 (-1); metadata := ∅ |}.

(** * Properties *)

Section history_facts.
Implicit Types (m : message) (h : list message) (n : Z).

Lemma is_system_has_role m : is_system m → has_role m.
Proof. unfold is_system, has_role. intros ->. eauto. Qed.

Lemma partition_step_system st m :
  is_system m → partition_step st m = PState (Some m) (other_msgs st).
Proof. intros H. unfold partition_step. by rewrite decide_True. Qed.

Lemma partition_step_other st m :
  is_other m →
  partition_step st m = PState (system_msg st) (other_msgs st ++ [m]).
Proof.
  intros [H1 H2]. unfold partition_step.
  rewrite decide_False by exact H2. by rewrite decide_True.
Qed.

Lemma partition_step_malformed st m :
  ¬ has_role m → partition_step st m = st.
Proof.
  intros H. unfold partition_step.
  rewrite decide_False.
  - by rewrite decide_False.
  - intros Hs. by apply H, is_system_has_role.
Qed.

Lemma message_cases m : is_system m ∨ is_other m ∨ ¬ has_role m.
Proof.
  destruct (decide (is_system m)); [by left|].
  destruct (decide (has_role m)); [right; left; by split | by right; right].
Qed.

(** The loop, characterised: [other_msgs] collects the role-bearing
    non-system messages in order, [system_msg] is the last system
    message seen. *)
Lemma foldl_partition_step st h :
  foldl partition_step st h =
  PState (match last (filter is_system h) with
          | Some s => Some s
          | None => system_msg st
          end)
         (other_msgs st ++ filter is_other h).
Proof.
  revert st. induction h as [|m h IH]; intros st; simpl.
  - rewrite app_nil_r. by destruct st.
  - rewrite IH.
    destruct (message_cases m) as [Hs|[Ho|Hn]].
    + rewrite (partition_step_system _ _ Hs); simpl.
      rewrite (filter_cons_True is_system) by done.
      rewrite filter_cons_False by (intros [_ ?]; done).
      f_equal. rewrite last_cons. by destruct (last _).
    + rewrite (partition_step_other _ _ Ho); simpl.
      rewrite (filter_cons_False is_system) by (by destruct Ho).
      rewrite (filter_cons_True is_other) by done.
      by rewrite <- app_assoc.
    + rewrite (partition_step_malformed _ _ Hn).
      rewrite (filter_cons_False is_system)
        by (intros ?; by apply Hn, is_system_has_role).
      rewrite (filter_cons_False is_other) by (intros [? _]; done).
      done.
Qed.
End history_facts.

Section truncate_facts.
Implicit Types (m : message) (h : list message) (n : Z).

Lemma system_truthy m : is_system m → Py.dict_truthy m = true.
Proof.
  unfold is_system, Py.dict_truthy. intros H.
  apply bool_decide_eq_true. intros ->. by rewrite lookup_empty in H.
Qed.

Lemma last_filter_system h s :
  last (systems_of h) = Some s → is_system s.
Proof.
  intros H. apply last_Some_elem_of in H.
  by apply list_elem_of_filter in H as [? _].
Qed.

(** The function in closed form. *)
Lemma truncate_unfold h n :
  truncate_conversation_history h n =
  system_part h ++ keep_recent n (others_of h).
Proof.
  unfold truncate_conversation_history, partition_history, system_part.
  destruct h as [|m h].
  { cbn. unfold keep_recent, Py.slice_from.
    destruct (_ >? _); [by rewrite drop_nil|done]. }
  cbn [Py.list_truthy negb].
  rewrite foldl_partition_step. cbn [system_msg other_msgs app].
  fold (systems_of (m :: h)) (others_of (m :: h)).
  fold (keep_recent n (others_of (m :: h))).
  destruct (last (systems_of (m :: h))) as [s|] eqn:E; [|done].
  by rewrite (system_truthy s (last_filter_system _ _ E)).
Qed.

Lemma slice_from_neg_pos {A} (k : Z) (l : list A) :
  0 < k → k ≤ Z.of_nat (length l) →
  Py.slice_from (- k) l = drop (length l - Z.to_nat k) l.
Proof.
  intros Hk Hl. unfold Py.slice_from.
  destruct (Z.ltb_spec (- k) 0); [|lia].
  f_equal. lia.
Qed.

Lemma slice_from_zero {A} (l : list A) : Py.slice_from (- 0) l = l.
Proof. unfold Py.slice_from. simpl. destruct (length l); done. Qed.

Lemma keep_recent_pos n others :
  0 < n → Z.of_nat (length others) > n →
  keep_recent n others = drop (length others - Z.to_nat n) others.
Proof.
  intros Hn Hl. unfold keep_recent.
  destruct (Z.gtb_spec (Z.of_nat (length others)) n); [|lia].
  apply slice_from_neg_pos; lia.
Qed.

Lemma keep_recent_zero others : keep_recent 0 others = others.
Proof.
  unfold keep_recent. destruct (_ >? _); [apply slice_from_zero|done].
Qed.

Lemma keep_recent_le n others :
  Z.of_nat (length others) ≤ n → keep_recent n others = others.
Proof.
  intros H. unfold keep_recent.
  destruct (Z.gtb_spec (Z.of_nat (length others)) n); [lia|done].
Qed.

Lemma keep_recent_suffix n others : keep_recent n others `suffix_of` others.
Proof.
  unfold keep_recent, Py.slice_from.
  destruct (_ >? _); [apply suffix_drop|done].
Qed.

Lemma keep_recent_length_pos n others :
  0 < n → Z.of_nat (length (keep_recent n others)) ≤ n.
Proof.
  intros Hn.
  destruct (Z.gtb_spec (Z.of_nat (length others)) n) as [Hgt|Hle].
  - rewrite keep_recent_pos by lia. rewrite length_drop. lia.
  - by rewrite keep_recent_le.
Qed.

Lemma keep_recent_idemp n others :
  0 ≤ n → keep_recent n (keep_recent n others) = keep_recent n others.
Proof.
  intros Hn. destruct (decide (n = 0)) as [->|Hne].
  - by rewrite !keep_recent_zero.
  - apply keep_recent_le, keep_recent_length_pos. lia.
Qed.

Lemma Forall_others h : Forall is_other (others_of h).
Proof. apply Forall_forall. intros m Hm. by apply list_elem_of_filter in Hm as [? _]. Qed.

Lemma Forall_keep_recent n h : Forall is_other (keep_recent n (others_of h)).
Proof.
  destruct (keep_recent_suffix n (others_of h)) as [k Hk].
  pose proof (Forall_others h) as H. rewrite Hk in H.
  by apply Forall_app in H as [_ ?].
Qed.

Lemma others_of_others l : Forall is_other l → others_of l = l.
Proof.
  induction 1 as [|m l Hm _ IH]; [done|].
  unfold others_of in *. rewrite filter_cons_True by done. by rewrite IH.
Qed.

Lemma systems_of_others l : Forall is_other l → systems_of l = [].
Proof.
  induction 1 as [|m l Hm _ IH]; [done|].
  unfold systems_of in *. rewrite filter_cons_False by (by destruct Hm). done.
Qed.

Lemma system_part_system h : Forall is_system (system_part h).
Proof.
  unfold system_part. destruct (last _) eqn:E; [|done].
  constructor; [|done]. by eapply last_filter_system.
Qed.

Lemma others_of_app l1 l2 : others_of (l1 ++ l2) = others_of l1 ++ others_of l2.
Proof. apply filter_app. Qed.
Lemma systems_of_app l1 l2 : systems_of (l1 ++ l2) = systems_of l1 ++ systems_of l2.
Proof. apply filter_app. Qed.

Lemma others_of_systems l : Forall is_system l → others_of l = [].
Proof.
  induction 1 as [|m l Hm _ IH]; [done|].
  unfold others_of in *. rewrite filter_cons_False by (intros [_ ?]; done). done.
Qed.

Lemma systems_of_systems l : Forall is_system l → systems_of l = l.
Proof.
  induction 1 as [|m l Hm _ IH]; [done|].
  unfold systems_of in *. rewrite filter_cons_True by done. by rewrite IH.
Qed.

(** Partitioning an output again finds the same two parts. *)
Lemma partition_output h n :
  system_part (truncate_conversation_history h n) = system_part h ∧
  others_of (truncate_conversation_history h n) = keep_recent n (others_of h).
Proof.
  rewrite truncate_unfold.
  pose proof (system_part_system h) as Hs.
  pose proof (Forall_keep_recent n h) as Ho.
  split.
  - unfold system_part at 1. rewrite systems_of_app.
    rewrite (systems_of_others _ Ho), app_nil_r, (systems_of_systems _ Hs).
    unfold system_part. by destruct (last (systems_of h)).
  - rewrite others_of_app, (others_of_systems _ Hs), (others_of_others _ Ho). done.
Qed.

(** Claim C8. Truncating is idempotent: for every history and every
    [max_messages ≥ 0], truncating an already truncated history with the
    same cap changes nothing. The case [max_messages = 0] holds too: there
    the slice keeps every message, both times. *)
Theorem truncate_idempotent h n :
  0 ≤ n →
  truncate_conversation_history (truncate_conversation_history h n) n =
  truncate_conversation_history h n.
Proof.
  intros Hn.
  rewrite (truncate_unfold (truncate_conversation_history h n)).
  destruct (partition_output h n) as [-> ->].
  rewrite keep_recent_idemp by done. by rewrite truncate_unfold.
Qed.
End truncate_facts.

Section truncate_claims.
Implicit Types (m : message) (h : list message) (n : Z).

Lemma last_filter_split (P : message → Prop) `{!∀ m, Decision (P m)} h s :
  last (filter P h) = Some s →
  ∃ pre post, h = pre ++ s :: post ∧ P s ∧ Forall (λ m, ¬ P m) post.
Proof.
  induction h as [|x h IH] using rev_ind; [done|].
  rewrite filter_app. destruct (decide (P x)) as [Hx|Hx].
  - rewrite (filter_cons_True P), filter_nil by done.
    rewrite last_snoc. intros [= ->]. by exists h, [].
  - rewrite (filter_cons_False P), filter_nil, app_nil_r by done.
    intros Hl. destruct (IH Hl) as (pre & post & -> & Hs & Hpost).
    exists pre, (post ++ [x]). split; [by rewrite <- app_assoc|].
    split; [done|]. apply Forall_app. split; [done|]. by constructor.
Qed.

Lemma truncate_Forall_role h n :
  Forall has_role (truncate_conversation_history h n).
Proof.
  rewrite truncate_unfold. apply Forall_app. split.
  - eapply Forall_impl; [apply system_part_system|].
    intros m. apply is_system_has_role.
  - eapply Forall_impl; [apply Forall_keep_recent|]. by intros m [? _].
Qed.

Lemma truncate_systems h n :
  systems_of (truncate_conversation_history h n) = system_part h.
Proof.
  rewrite truncate_unfold, systems_of_app.
  rewrite (systems_of_systems _ (system_part_system h)).
  by rewrite (systems_of_others _ (Forall_keep_recent n h)), app_nil_r.
Qed.

(** Claim C3. When a history holds two or more system messages, the last
    one wins: the history splits around its last system message [s], the
    output starts with [s], [s] is the only system message of the output,
    and every earlier system message that differs from [s] does not occur
    in the output at all. (An earlier entry equal to [s] as a dictionary is
    dropped as well: the output holds one system entry.) *)
Theorem truncate_last_system_wins h n :
  (2 ≤ length (systems_of h))%nat →
  ∃ pre s post,
    h = pre ++ s :: post ∧ is_system s ∧ Forall (λ m, ¬ is_system m) post ∧
    truncate_conversation_history h n !! 0%nat = Some s ∧
    systems_of (truncate_conversation_history h n) = [s] ∧
    (∀ i m, (i < length pre)%nat → h !! i = Some m → is_system m → m ≠ s →
            m ∉ truncate_conversation_history h n).
Proof.
  intros Hlen.
  destruct (last (systems_of h)) as [s|] eqn:E.
  2: { apply last_None in E. rewrite E in Hlen. simpl in Hlen. lia. }
  destruct (last_filter_split is_system h s E) as (pre & post & Hh & Hs & Hpost).
  exists pre, s, post. split; [done|]. split; [done|]. split; [done|].
  assert (system_part h = [s]) as Hsp by (unfold system_part; by rewrite E).
  split; [by rewrite truncate_unfold, Hsp|].
  split; [by rewrite truncate_systems|].
  intros i m _ _ Hm Hne Hin.
  assert (m ∈ systems_of (truncate_conversation_history h n)) as Hin'
    by (by apply list_elem_of_filter).
  rewrite truncate_systems, Hsp in Hin'. by apply list_elem_of_singleton in Hin'.
Qed.

(** Claim C5. An entry without a ["role"] key never occurs in the output,
    whatever the history and the cap. Nothing in the loop can fail on such
    an entry: [msg.get] and [in] answer for a missing key, which the lookup
    [!!] of the model returns as [None], and the function is total. *)
Theorem truncate_drops_malformed h n m :
  m !! "role" = None → m ∉ truncate_conversation_history h n.
Proof.
  intros Hm Hin.
  pose proof (truncate_Forall_role h n) as H.
  rewrite Forall_forall in H. destruct (H m Hin) as [r Hr]. congruence.
Qed.

(** With a positive cap below the number of other messages, the output is
    the retained system message followed by exactly the trailing
    [max_messages] other messages. *)
Lemma truncate_keeps_trailing h n :
  0 < n → Z.of_nat (length (others_of h)) > n →
  truncate_conversation_history h n =
    system_part h ++ drop (length (others_of h) - Z.to_nat n) (others_of h) ∧
  length (drop (length (others_of h) - Z.to_nat n) (others_of h)) = Z.to_nat n.
Proof.
  intros Hn Hl. split.
  - by rewrite truncate_unfold, keep_recent_pos.
  - rewrite length_drop. lia.
Qed.

(** Claim C2, at [max_messages = 0]. The slice [other_msgs[-0:]] is the
    whole list, so a cap of zero keeps every role-bearing message: for the
    one-message history below, whose count of other messages (1) exceeds
    the cap (0), the output is the history itself and not the trailing
    zero messages. *)
Theorem truncate_max_zero_keeps_everything :
  (∀ h, truncate_conversation_history h 0 = system_part h ++ others_of h) ∧
  let h := [mk_message "user" "hello"] in
  Z.of_nat (length (others_of h)) > 0 ∧
  truncate_conversation_history h 0 = h ∧
  truncate_conversation_history h 0 ≠
    system_part h ++ drop (length (others_of h) - Z.to_nat 0) (others_of h).
Proof.
  split.
  - intros h. by rewrite truncate_unfold, keep_recent_zero.
  - cbv zeta. split; [by vm_compute|].
    split; [vm_compute; reflexivity|].
    intros Heq. apply (f_equal length) in Heq. vm_compute in Heq. discriminate.
Qed.

Lemma truncate_length_pos h n :
  0 < n → Z.of_nat (length (truncate_conversation_history h n)) ≤ n + 1.
Proof.
  intros Hn. rewrite truncate_unfold, length_app.
  pose proof (keep_recent_length_pos n (others_of h) Hn).
  assert (length (system_part h) ≤ 1)%nat.
  { unfold system_part. destruct (last _); simpl; lia. }
  lia.
Qed.

Lemma truncate_system_first h n i m :
  truncate_conversation_history h n !! i = Some m → is_system m → i = 0%nat.
Proof.
  rewrite truncate_unfold. intros Hi Hm.
  destruct i as [|i]; [done|]. exfalso.
  assert (keep_recent n (others_of h) !! (S i - length (system_part h))%nat = Some m
          ∨ False) as [H|[]].
  { apply lookup_app_Some in Hi as [Hi|[_ Hi]]; [|by left].
    unfold system_part in Hi. destruct (last _); simpl in Hi; [|done].
    by rewrite lookup_nil in Hi. }
  pose proof (Forall_keep_recent n h) as Ho. rewrite Forall_lookup in Ho.
  by destruct (Ho _ _ H) as [_ ?].
Qed.

Lemma truncate_one_system h n :
  (length (systems_of (truncate_conversation_history h n)) ≤ 1)%nat.
Proof.
  rewrite truncate_systems. unfold system_part. destruct (last _); simpl; lia.
Qed.

(** Claim C9, at [max_messages = 0]. With two other messages and a cap of
    zero the output has two entries, more than [max_messages + 1]. *)
Theorem truncate_max_zero_exceeds_bound :
  let h := [mk_message "user" "one"; mk_message "assistant" "two"] in
  truncate_conversation_history h 0 = h ∧
  ¬ (Z.of_nat (length (truncate_conversation_history h 0)) ≤ 0 + 1).
Proof.
  cbv zeta. split; [vm_compute; reflexivity|].
  intros Hle. vm_compute in Hle. by apply Hle.
Qed.

(** Claim C4. For a history list, [build_messages] returns the system
    message, the history verbatim and in order, then the user message:
    [2 + length history] entries, the first with role ["system"] and the
    system prompt as content, the last with role ["user"] and the user
    prompt as content. *)
Theorem build_messages_shape (system_prompt user_prompt : string) h :
  let out := build_messages system_prompt user_prompt (Some h) in
  out = mk_message "system" system_prompt :: h ++ [mk_message "user" user_prompt] ∧
  length out = (2 + length h)%nat ∧
  (∃ m, out !! 0%nat = Some m ∧
        m !! "role" = Some "system" ∧ m !! "content" = Some system_prompt) ∧
  (∃ m, last out = Some m ∧
        m !! "role" = Some "user" ∧ m !! "content" = Some user_prompt) ∧
  take (length h) (drop 1 out) = h.
Proof.
  intros out.
  assert (out = mk_message "system" system_prompt :: h ++ [mk_message "user" user_prompt]) as Hout.
  { unfold out, build_messages. destruct h; simpl; [done|]. done. }
  split; [done|]. rewrite Hout. split.
  { simpl. rewrite length_app. simpl. lia. }
  split.
  { eexists. split; [done|]. unfold mk_message. by simplify_map_eq. }
  split.
  { eexists. split; [by rewrite last_cons, last_snoc|].
    unfold mk_message. by simplify_map_eq. }
  change (take (length h) (h ++ [mk_message "user" user_prompt]) = h).
  by rewrite take_app_length.
Qed.

(** Without a history ([None], the default) only the two prompts are sent. *)
Lemma build_messages_no_history (system_prompt user_prompt : string) :
  build_messages system_prompt user_prompt None =
  [mk_message "system" system_prompt; mk_message "user" user_prompt].
Proof. reflexivity. Qed.
End truncate_claims.

Section format_facts.
Implicit Types (r : RetrievalResult) (results : list RetrievalResult).

Lemma str_app_cons (x : ascii) (a b : string) :
  String x a +:+ b = String x (a +:+ b).
Proof. reflexivity. Qed.

Lemma str_app_nil_l (a : string) : EmptyString +:+ a = a.
Proof. reflexivity. Qed.

Lemma str_app_assoc (a b c : string) : (a +:+ b) +:+ c = a +:+ (b +:+ c).
Proof.
  induction a as [|x a IH]; [done|]. by rewrite !str_app_cons, IH.
Qed.

Lemma str_app_nil_r (a : string) : a +:+ EmptyString = a.
Proof. induction a as [|x a IH]; [done|]. by rewrite str_app_cons, IH. Qed.

(** The blocks, as a list. *)
Lemma foldl_context_step acc k results :
  foldl context_step acc (enumerate k results) =
  acc ++ imap (λ i r, context_part (k + i) r) results.
Proof.
  revert acc k. induction results as [|r results IH]; intros acc k; simpl.
  - by rewrite app_nil_r.
  - rewrite IH. unfold context_step. cbn [fst snd].
    rewrite <- app_assoc. cbn [app]. rewrite Nat.add_0_r.
    do 2 f_equal. apply imap_ext. intros i x _. simpl. f_equal. lia.
Qed.

Lemma format_context_nonempty results :
  results ≠ [] →
  format_context_from_results results =
  ((nl +:+ nl) +:+ str_repeat "-" 80)
    +:+ str_join (nl +:+ nl) (imap (λ i r, context_part (S i) r) results).
Proof.
  intros Hne. unfold format_context_from_results.
  destruct results as [|r results]; [done|].
  cbn [Py.list_truthy negb]. by rewrite foldl_context_step.
Qed.

Lemma str_join_split sep (l1 l2 : list string) x :
  ∃ before after, str_join sep (l1 ++ x :: l2) = before +:+ x +:+ after.
Proof.
  induction l1 as [|y l1 IH]; simpl.
  - exists EmptyString. destruct l2 as [|z l2].
    + exists EmptyString. by rewrite str_app_nil_r.
    + by eexists.
  - destruct IH as (b & a & IH).
    destruct (l1 ++ x :: l2) eqn:E; [by destruct l1|].
    rewrite IH. exists (y +:+ sep +:+ b), a. by rewrite !str_app_assoc.
Qed.

(** Claim C6. For the empty list of results the context is the fixed
    sentence. *)
Theorem format_context_empty :
  format_context_from_results [] = "No relevant context found.".
Proof. reflexivity. Qed.

Lemma context_part_in_output results i r :
  results !! i = Some r →
  ∃ before after,
    format_context_from_results results =
    before +:+ context_part (S i) r +:+ after.
Proof.
  intros Hi.
  assert (results ≠ []) as Hne by (intros ->; by rewrite lookup_nil in Hi).
  rewrite (format_context_nonempty _ Hne).
  apply list_elem_of_split_length in Hi as (l1 & l2 & -> & ->).
  rewrite imap_app. cbn [imap]. rewrite Nat.add_0_r.
  match goal with
  | |- context [str_join ?s (?l1 ++ ?x :: ?l2)] =>
      destruct (str_join_split s l1 l2 x) as (b & a & ->)
  end.
  exists (((nl +:+ nl) +:+ str_repeat "-" 80) +:+ b), a.
  by rewrite !str_app_assoc.
Qed.

(** Claim C10. A result whose metadata lacks ["file_name"] or
    ["chunk_index"] is formatted all the same: its block is part of the
    returned string, with [Unknown] as the source and [N/A] as the chunk
    index in place of the missing values. *)
Theorem format_context_metadata_defaults results i r :
  results !! i = Some r →
  (∃ before after,
    format_context_from_results results =
    before +:+ context_part (S i) r +:+ after) ∧
  (metadata r !! "file_name" = None →
   ∃ rest, context_part (S i) r =
     "Document " +:+ pretty (S i) +:+ " (Source: Unknown, Chunk: " +:+ rest) ∧
  (metadata r !! "chunk_index" = None →
   ∃ source rest, context_part (S i) r =
     "Document " +:+ pretty (S i) +:+ " (Source: " +:+ source +:+
     ", Chunk: N/A, Relevance: " +:+ rest) ∧
  (metadata r !! "file_name" = None → metadata r !! "chunk_index" = None →
   context_part (S i) r =
     "Document " +:+ pretty (S i) +:+ " (Source: Unknown, Chunk: N/A, Relevance: "
     +:+ format_3f (score r) +:+ "):" +:+ nl +:+ text r).
Proof.
  intros Hi. split; [by apply context_part_in_output|].
  unfold context_part, Py.dict_get. cbn [concat_strings].
  split; [|split].
  - intros ->. cbn [py_str].
    by exists (concat_strings
      [py_str (Py.dict_get (metadata r) "chunk_index" (PyStr "N/A"));
       ", Relevance: "; format_3f (score r); "):"; nl; text r]).
  - intros ->. cbn [py_str].
    by exists (py_str (Py.dict_get (metadata r) "file_name" (PyStr "Unknown"))),
      (concat_strings [format_3f (score r); "):"; nl; text r]).
  - intros -> ->. cbn [py_str]. by rewrite str_app_nil_r.
Qed.
End format_facts.

Section prompt_facts.

(** The scan of [SYSTEM_PROMPT] against any keyword lookup: the first
    field read is [company_name], the last is [context]. *)
Lemma scan_system_prompt (kwargs : string → option string) :
  format_scan kwargs InText SYSTEM_PROMPT =
  match kwargs "company_name" with
  | None => Raise (KeyError "company_name")
  | Some company_name =>
      match kwargs "context" with
      | None => Raise (KeyError "context")
      | Some context => Ok (system_prompt_text company_name context)
      end
  end.
Proof.
  vm_compute.
  destruct (kwargs _) as [company_name|]; [|reflexivity].
  destruct (kwargs _) as [context|]; [|reflexivity].
  reflexivity.
Qed.

Lemma scan_user_prompt (kwargs : string → option string) :
  format_scan kwargs InText USER_PROMPT =
  match kwargs "query" with
  | None => Raise (KeyError "query")
  | Some query => Ok (user_prompt_text query)
  end.
Proof.
  vm_compute. destruct (kwargs _) as [query|]; reflexivity.
Qed.

End prompt_facts.

Section prompt_claims.

(** Claim C7. Both formatters return their template with the fields
    replaced by the arguments. They pass every field the template names, so
    this is their only outcome; the [str.format] call they make raises
    [KeyError] as soon as a field of the template is missing from the
    keyword arguments, and neither function has a handler that would hide
    it. *)
Theorem format_prompts_substitute_or_raise
    (kwargs : gmap string string) (company_name context query : string) :
  format_system_prompt company_name context =
    Ok (system_prompt_text company_name context) ∧
  format_user_prompt query = Ok (user_prompt_text query) ∧
  (kwargs !! "company_name" = None →
   str_format SYSTEM_PROMPT kwargs = Raise (KeyError "company_name")) ∧
  (is_Some (kwargs !! "company_name") → kwargs !! "context" = None →
   str_format SYSTEM_PROMPT kwargs = Raise (KeyError "context")) ∧
  (kwargs !! "query" = None →
   str_format USER_PROMPT kwargs = Raise (KeyError "query")).
Proof.
  unfold format_system_prompt, format_user_prompt, str_format.
  rewrite !scan_system_prompt, !scan_user_prompt.
  split; [by simplify_map_eq|]. split; [by simplify_map_eq|].
  split; [by intros ->|]. split; [|by intros ->].
  by intros [v ->] ->.
Qed.

Lemma format_prompts_witness :
  str_format SYSTEM_PROMPT (<["context" := "ctx"]> ∅) =
    Raise (KeyError "company_name") ∧
  str_format SYSTEM_PROMPT (<["company_name" := "ACME"]> ∅) =
    Raise (KeyError "context") ∧
  str_format USER_PROMPT (<["company_name" := "ACME"]> ∅) =
    Raise (KeyError "query").
Proof.
  destruct (format_prompts_substitute_or_raise
              (<["context" := "ctx"]> ∅) "a" "b" "c")
    as (_ & _ & Hname & _ & _).
  destruct (format_prompts_substitute_or_raise
              (<["company_name" := "ACME"]> ∅) "a" "b" "c")
    as (_ & _ & _ & Hcontext & Hquery).
  split; [exact (Hname eq_refl)|].
  split; [exact (Hcontext (ex_intro _ "ACME" eq_refl) eq_refl)|].
  exact (Hquery eq_refl).
Defined.

End prompt_claims.

Section context_claims.

(** Claim C1, at a list of two results. The line of 80 dashes is written
    once, before the first block; consecutive blocks are separated by two
    newlines only. *)
Theorem format_context_divider_only_leads :
  (∀ r1 r2,
     format_context_from_results [r1; r2] =
     ((nl +:+ nl) +:+ str_repeat "-" 80) +:+
     context_part 1 r1 +:+ (nl +:+ nl) +:+ context_part 2 r2) ∧
  format_context_from_results [doc_a; doc_b] =
    concat_strings [
      nl; nl;
      "--------------------------------------------------------------------------------";
      "Document 1 (Source: a.pdf, Chunk: 0, Relevance: 0.750):"; nl;
      "alpha"; nl;
      nl;
      "Document 2 (Source: b.pdf, Chunk: 7, Relevance: 0.062):"; nl;
      "beta"
    ].
Proof.
  split; [|vm_compute; reflexivity].
  intros r1 r2. rewrite format_context_nonempty by done. reflexivity.
Qed.

Lemma format_context_metadata_defaults_witness :
  [doc_a; doc_bare] !! 1%nat = Some doc_bare ∧
  metadata doc_bare !! "file_name" = None ∧
  metadata doc_bare !! "chunk_index" = None ∧
  context_part 2 doc_bare =
    "Document " +:+ pretty 2%nat +:+
    " (Source: Unknown, Chunk: N/A, Relevance: "
    +:+ format_3f (score doc_bare) +:+ "):" +:+ nl +:+ text doc_bare.
Proof.
  split; [reflexivity|]. split; [reflexivity|]. split; [reflexivity|].
  apply (format_context_metadata_defaults [doc_a; doc_bare] 1 doc_bare);
    reflexivity.
Defined.

Example context_part_bare :
  context_part 2 doc_bare =
  concat_strings
    ["Document 2 (Source: Unknown, Chunk: N/A, Relevance: 0.500):"; nl; "gamma"].
Proof. vm_compute. reflexivity. Qed.

End context_claims.

Section history_examples.

Lemma truncate_last_system_wins_witness :
  (2 ≤ length (systems_of sample_history))%nat ∧
  ∃ pre s post,
    sample_history = pre ++ s :: post ∧ is_system s ∧
    Forall (λ m, ¬ is_system m) post ∧
    truncate_conversation_history sample_history 2 !! 0%nat = Some s ∧
    systems_of (truncate_conversation_history sample_history 2) = [s] ∧
    (∀ i m, (i < length pre)%nat → sample_history !! i = Some m →
            is_system m → m ≠ s →
            m ∉ truncate_conversation_history sample_history 2).
Proof.
  assert (2 ≤ length (systems_of sample_history))%nat as H
    by (vm_compute; lia).
  split; [exact H|].
  exact (truncate_last_system_wins sample_history 2 H).
Defined.

Lemma truncate_drops_malformed_witness :
  no_role !! "role" = None ∧
  no_role ∉ truncate_conversation_history sample_history 10.
Proof.
  split; [reflexivity|].
  apply (truncate_drops_malformed sample_history 10 no_role). reflexivity.
Defined.

Lemma truncate_idempotent_witness :
  0 ≤ 2 ∧
  truncate_conversation_history
    (truncate_conversation_history sample_history 2) 2 =
  truncate_conversation_history sample_history 2.
Proof.
  split; [lia|]. apply (truncate_idempotent sample_history 2). lia.
Defined.

Example truncate_sample_2 :
  truncate_conversation_history sample_history 2 = [sys_new; bot "4"; usr "5"].
Proof. vm_compute. reflexivity. Qed.

Example truncate_sample_default :
  truncate_conversation_history sample_history default_max_messages =
  [sys_new; usr "1"; bot "2"; usr "3"; bot "4"; usr "5"].
Proof. vm_compute. reflexivity. Qed.

Example truncate_empty n : truncate_conversation_history [] n = [].
Proof. reflexivity. Qed.

End history_examples.

Section float_facts.




Example format_3f_tie_down : format_3f (PyFloat false 1 (-4)) = "0.062".
Proof. reflexivity. Qed.
Example format_3f_tie_up : format_3f (PyFloat false 3 (-4)) = "0.188".
Proof. reflexivity. Qed.
Example format_3f_negative_zero : format_3f (PyFloat true 1 (-20)) = "-0.000".
Proof. reflexivity. Qed.
Example format_3f_nine_tenths :
  format_3f (PyFloat false 8106479329266893 (-53)) = "0.900".
Proof. vm_compute. reflexivity. Qed.

End float_facts.

Section truncate_further.
Implicit Types (m : message) (h : list message) (n : Z).

Lemma systems_of_subset h m : m ∈ systems_of h → m ∈ h.
Proof. intros Hm. by apply list_elem_of_filter in Hm as [_ ?]. Qed.

Lemma others_of_subset h m : m ∈ others_of h → m ∈ h.
Proof. intros Hm. by apply list_elem_of_filter in Hm as [_ ?]. Qed.

(** Extra X1. Truncation only selects: every entry of the output is an
    entry of the history, and the non-system entries of the output are a
    suffix of the non-system, role-bearing entries of the history, so their
    relative order is the one of the history. *)
Theorem truncate_selects_from_history h n :
  (∀ m, m ∈ truncate_conversation_history h n → m ∈ h) ∧
  others_of (truncate_conversation_history h n) `suffix_of` others_of h.
Proof.
  split.
  - intros m. rewrite truncate_unfold. intros Hm.
    apply elem_of_app in Hm as [Hm|Hm].
    + unfold system_part in Hm. destruct (last (systems_of h)) as [s|] eqn:E.
      * apply list_elem_of_singleton in Hm as ->.
        apply systems_of_subset. by apply last_Some_elem_of.
      * by apply elem_of_nil in Hm.
    + apply others_of_subset.
      destruct (keep_recent_suffix n (others_of h)) as [k ->].
      apply elem_of_app. by right.
  - destruct (partition_output h n) as [_ ->]. apply keep_recent_suffix.
Qed.

(** Extra X2. When the number of non-system, role-bearing messages does
    not exceed the cap, none of them is dropped: the output is the retained
    system message followed by all of them. *)
Theorem truncate_within_cap h n :
  Z.of_nat (length (others_of h)) ≤ n →
  truncate_conversation_history h n = system_part h ++ others_of h.
Proof. intros Hn. by rewrite truncate_unfold, keep_recent_le. Qed.

Lemma truncate_within_cap_witness :
  Z.of_nat (length (others_of sample_history)) ≤ 5 ∧
  truncate_conversation_history sample_history 5 =
  system_part sample_history ++ others_of sample_history.
Proof.
  assert (Z.of_nat (length (others_of sample_history)) ≤ 5) as H
    by (vm_compute; discriminate).
  split; [exact H|]. exact (truncate_within_cap sample_history 5 H).
Defined.

(** Extra X3. A negative cap is not refused: the comparison always holds
    and the slice [other_msgs[k:]] with [k = -max_messages] drops the [k]
    oldest messages instead of keeping the newest ones. *)
Theorem truncate_negative_cap h n :
  n < 0 →
  truncate_conversation_history h n =
  system_part h ++ drop (Z.to_nat (- n)) (others_of h).
Proof.
  intros Hn. rewrite truncate_unfold. f_equal.
  unfold keep_recent, Py.slice_from.
  destruct (Z.gtb_spec (Z.of_nat (length (others_of h))) n); [|lia].
  destruct (Z.ltb_spec (- n) 0); [lia|].
  destruct (Z.min_spec (- n) (Z.of_nat (length (others_of h))))
    as [[_ ->]|[Hge ->]]; [done|].
  rewrite Nat2Z.id. rewrite !drop_ge; [done|lia|lia].
Qed.

Lemma truncate_negative_cap_witness :
  -2 < 0 ∧
  truncate_conversation_history sample_history (-2) =
  system_part sample_history ++ drop (Z.to_nat (- -2)) (others_of sample_history).
Proof.
  split; [lia|]. apply (truncate_negative_cap sample_history (-2)). lia.
Defined.

(** Extra X4. For a cap of at least one the output has at most
    [max_messages + 1] entries. *)
Theorem truncate_length_bound h n :
  1 ≤ n → Z.of_nat (length (truncate_conversation_history h n)) ≤ n + 1.
Proof.
  intros Hn. rewrite truncate_unfold, length_app.
  assert (Z.of_nat (length (keep_recent n (others_of h))) ≤ n)
    by (apply keep_recent_length_pos; lia).
  assert (length (system_part h) ≤ 1)%nat
    by (unfold system_part; destruct (last _); simpl; lia).
  lia.
Qed.

Lemma truncate_length_bound_witness :
  1 ≤ 2 ∧
  Z.of_nat (length (truncate_conversation_history sample_history 2)) ≤ 2 + 1.
Proof.
  split; [lia|]. apply (truncate_length_bound sample_history 2). lia.
Defined.

(** Extra X5. Whatever the cap, negative ones included, the output holds at
    most one system message, and a system message of the output stands at
    index zero. *)
Theorem truncate_system_only_first h n i m :
  truncate_conversation_history h n !! i = Some m → is_system m →
  i = 0%nat ∧ (length (systems_of (truncate_conversation_history h n)) ≤ 1)%nat.
Proof.
  intros Hi Hm. split.
  - rewrite truncate_unfold in Hi.
    destruct i as [|i]; [done|]. exfalso.
    assert (m ∈ keep_recent n (others_of h)) as Hin.
    { apply lookup_app_Some in Hi as [Hi|[_ Hi]].
      - unfold system_part in Hi. destruct (last _); simpl in Hi; [|done].
        by rewrite lookup_nil in Hi.
      - by eapply list_elem_of_lookup_2. }
    pose proof (Forall_keep_recent n h) as Ho. rewrite Forall_forall in Ho.
    by destruct (Ho _ Hin) as [_ ?].
  - destruct (partition_output h n) as [Hs _].
    unfold system_part in Hs.
    destruct (systems_of (truncate_conversation_history h n)) as [|a [|b l]] eqn:E;
      simpl; [lia|lia|].
    exfalso.
    assert (Forall is_other (keep_recent n (others_of h))) as Ho
      by apply Forall_keep_recent.
    assert (systems_of (truncate_conversation_history h n) = system_part h) as E'.
    { rewrite truncate_unfold, systems_of_app.
      rewrite (systems_of_systems _ (system_part_system h)).
      by rewrite (systems_of_others _ Ho), app_nil_r. }
    rewrite E in E'. unfold system_part in E'. by destruct (last (systems_of h)).
Qed.

Lemma truncate_system_only_first_witness :
  truncate_conversation_history sample_history 2 !! 0%nat = Some sys_new ∧
  is_system sys_new ∧
  0%nat = 0%nat ∧
  (length (systems_of (truncate_conversation_history sample_history 2)) ≤ 1)%nat.
Proof.
  assert (truncate_conversation_history sample_history 2 !! 0%nat = Some sys_new)
    as H1 by (vm_compute; reflexivity).
  assert (is_system sys_new) as H2 by (vm_compute; reflexivity).
  split; [exact H1|]. split; [exact H2|].
  exact (truncate_system_only_first sample_history 2 0 sys_new H1 H2).
Defined.

(** Extra X6. The system message is always kept: if the history holds a
    system message, the output starts with the last one, for every cap. *)
Theorem truncate_keeps_system h n s :
  last (systems_of h) = Some s →
  truncate_conversation_history h n !! 0%nat = Some s ∧ s ∈ h ∧ is_system s.
Proof.
  intros Hs. split; [|split].
  - rewrite truncate_unfold. unfold system_part. by rewrite Hs.
  - apply systems_of_subset. by apply last_Some_elem_of.
  - by eapply last_filter_system.
Qed.

Lemma truncate_keeps_system_witness :
  last (systems_of sample_history) = Some sys_new ∧
  truncate_conversation_history sample_history (-3) !! 0%nat = Some sys_new ∧
  sys_new ∈ sample_history ∧ is_system sys_new.
Proof.
  assert (last (systems_of sample_history) = Some sys_new) as H
    by (vm_compute; reflexivity).
  split; [exact H|]. exact (truncate_keeps_system sample_history (-3) sys_new H).
Defined.

End truncate_further.

Section truncate_relations.
Implicit Types (m : message) (h : list message) (n : Z).

Lemma systems_of_filter_role h : systems_of (filter has_role h) = systems_of h.
Proof.
  unfold systems_of. induction h as [|m h IH]; [done|].
  destruct (decide (has_role m)) as [Hr|Hr].
  - rewrite (filter_cons_True has_role) by done.
    destruct (decide (is_system m)).
    + rewrite !(filter_cons_True is_system) by done. by rewrite IH.
    + rewrite !(filter_cons_False is_system) by done. by rewrite IH.
  - rewrite (filter_cons_False has_role) by done.
    rewrite (filter_cons_False is_system)
      by (intros ?; by apply Hr, is_system_has_role).
    done.
Qed.

Lemma others_of_filter_role h : others_of (filter has_role h) = others_of h.
Proof.
  unfold others_of. induction h as [|m h IH]; [done|].
  destruct (decide (has_role m)) as [Hr|Hr].
  - rewrite (filter_cons_True has_role) by done.
    destruct (decide (is_other m)).
    + rewrite !(filter_cons_True is_other) by done. by rewrite IH.
    + rewrite !(filter_cons_False is_other) by done. by rewrite IH.
  - rewrite (filter_cons_False has_role) by done.
    rewrite (filter_cons_False is_other) by (intros [? _]; done).
    done.
Qed.

(** Extra X7. Entries without a ["role"] key have no influence on the
    result: removing them from the history beforehand gives the same
    output. *)
Theorem truncate_ignores_malformed h n :
  truncate_conversation_history (filter has_role h) n =
  truncate_conversation_history h n.
Proof.
  rewrite !truncate_unfold. unfold system_part.
  by rewrite systems_of_filter_role, others_of_filter_role.
Qed.

(** Extra X8. A larger cap never drops a message that a smaller cap keeps:
    for caps [1 ≤ n ≤ k] the non-system messages kept under [n] are a
    suffix of those kept under [k]. *)
Theorem truncate_cap_monotone h n k :
  1 ≤ n → n ≤ k →
  others_of (truncate_conversation_history h n)
    `suffix_of` others_of (truncate_conversation_history h k).
Proof.
  intros Hn Hk.
  destruct (partition_output h n) as [_ ->].
  destruct (partition_output h k) as [_ ->].
  set (o := others_of h).
  destruct (Z.gtb_spec (Z.of_nat (length o)) k) as [Hgt|Hle].
  - rewrite !keep_recent_pos by lia.
    exists (take (Z.to_nat k - Z.to_nat n) (drop (length o - Z.to_nat k) o)).
    rewrite <- (take_drop (Z.to_nat k - Z.to_nat n)
      (drop (length o - Z.to_nat k) o)) at 1.
    f_equal. rewrite drop_drop. f_equal. lia.
  - rewrite (keep_recent_le k) by lia. apply keep_recent_suffix.
Qed.

Lemma truncate_cap_monotone_witness :
  1 ≤ 2 ∧ 2 ≤ 4 ∧
  others_of (truncate_conversation_history sample_history 2)
    `suffix_of` others_of (truncate_conversation_history sample_history 4).
Proof.
  split; [lia|]. split; [lia|].
  apply (truncate_cap_monotone sample_history 2 4); lia.
Defined.

Lemma keep_recent_last n (others : list message) m :
  0 ≤ n → last others = Some m → last (keep_recent n others) = Some m.
Proof.
  intros Hn Hm.
  destruct (decide (n = 0)) as [->|Hne]; [by rewrite keep_recent_zero|].
  destruct (Z.gtb_spec (Z.of_nat (length others)) n) as [Hgt|Hle].
  - rewrite keep_recent_pos by lia.
    rewrite last_lookup in Hm. rewrite last_lookup, lookup_drop, length_drop.
    rewrite <- Hm. f_equal. lia.
  - by rewrite keep_recent_le.
Qed.

Lemma last_app_Some {A} (l1 l2 : list A) x :
  last l2 = Some x → last (l1 ++ l2) = Some x.
Proof.
  destruct l2 as [|y l2 _] using rev_ind; [done|].
  rewrite app_assoc, !last_snoc. done.
Qed.

(** Extra X9. For a cap that is not negative the most recent non-system,
    role-bearing message of the history is the last entry of the output. *)
Theorem truncate_keeps_most_recent h n m :
  0 ≤ n → last (others_of h) = Some m →
  last (truncate_conversation_history h n) = Some m.
Proof.
  intros Hn Hm. rewrite truncate_unfold.
  by apply last_app_Some, keep_recent_last.
Qed.

Lemma truncate_keeps_most_recent_witness :
  0 ≤ 1 ∧ last (others_of sample_history) = Some (usr "5") ∧
  last (truncate_conversation_history sample_history 1) = Some (usr "5").
Proof.
  assert (last (others_of sample_history) = Some (usr "5")) as H
    by (vm_compute; reflexivity).
  split; [lia|]. split; [exact H|].
  apply (truncate_keeps_most_recent sample_history 1 (usr "5")); [lia|exact H].
Defined.

(** Extra X10. Truncation is the identity on a history that is already in
    the shape it produces and within the cap: one system message followed
    by at most [max_messages] non-system, role-bearing messages. *)
Theorem truncate_identity_within_cap s (others : list message) n :
  is_system s → Forall is_other others →
  Z.of_nat (length others) ≤ n →
  truncate_conversation_history (s :: others) n = s :: others.
Proof.
  intros Hs Ho Hn. rewrite truncate_unfold. unfold system_part.
  change (s :: others) with ([s] ++ others).
  rewrite systems_of_app, others_of_app.
  rewrite (systems_of_others _ Ho), (others_of_others _ Ho).
  rewrite (systems_of_systems [s]), (others_of_systems [s])
    by (by constructor).
  simpl. by rewrite keep_recent_le.
Qed.

Lemma truncate_identity_within_cap_witness :
  is_system sys_new ∧ Forall is_other [usr "1"; bot "2"] ∧
  Z.of_nat (length [usr "1"; bot "2"]) ≤ 2 ∧
  truncate_conversation_history (sys_new :: [usr "1"; bot "2"]) 2 =
  sys_new :: [usr "1"; bot "2"].
Proof.
  assert (is_system sys_new) as H1 by (vm_compute; reflexivity).
  assert (Forall is_other [usr "1"; bot "2"]) as H2.
  { apply (bool_decide_unpack _). vm_compute. exact I. }
  assert (Z.of_nat (length [usr "1"; bot "2"]) ≤ 2) as H3
    by (vm_compute; discriminate).
  split; [exact H1|]. split; [exact H2|]. split; [exact H3|].
  exact (truncate_identity_within_cap sys_new [usr "1"; bot "2"] 2 H1 H2 H3).
Defined.

End truncate_relations.

Section pipeline_facts.
Implicit Types (m : message) (h : list message) (n : Z).

Lemma build_messages_eq (system_prompt user_prompt : string) h :
  build_messages system_prompt user_prompt (Some h) =
  mk_message "system" system_prompt :: h ++ [mk_message "user" user_prompt].
Proof. unfold build_messages. by destruct h. Qed.

Lemma mk_message_system c : is_system (mk_message "system" c).
Proof. unfold is_system, mk_message. by simplify_map_eq. Qed.

Lemma mk_message_user c : is_other (mk_message "user" c).
Proof.
  unfold is_other, has_role, is_system, mk_message. split.
  - eexists. by simplify_map_eq.
  - by simplify_map_eq.
Qed.

Lemma systems_of_build (system_prompt user_prompt : string) h :
  systems_of (build_messages system_prompt user_prompt (Some h)) =
  mk_message "system" system_prompt :: systems_of h.
Proof.
  rewrite build_messages_eq.
  change (mk_message "system" system_prompt :: h ++ [mk_message "user" user_prompt])
    with ([mk_message "system" system_prompt] ++ h ++ [mk_message "user" user_prompt]).
  rewrite !systems_of_app.
  rewrite (systems_of_systems [_]) by (constructor; [apply mk_message_system|done]).
  rewrite (systems_of_others [_]) by (constructor; [apply mk_message_user|done]).
  by rewrite app_nil_r.
Qed.

Lemma others_of_build (system_prompt user_prompt : string) h :
  others_of (build_messages system_prompt user_prompt (Some h)) =
  others_of h ++ [mk_message "user" user_prompt].
Proof.
  rewrite build_messages_eq.
  change (mk_message "system" system_prompt :: h ++ [mk_message "user" user_prompt])
    with ([mk_message "system" system_prompt] ++ h ++ [mk_message "user" user_prompt]).
  rewrite !others_of_app.
  rewrite (others_of_systems [_]) by (constructor; [apply mk_message_system|done]).
  by rewrite (others_of_others [_]) by (constructor; [apply mk_message_user|done]).
Qed.

(** Extra X11. [build_messages] does not look at the roles of the history:
    a system message of the history stays, so the result holds one system
    message more than the history, and the current user prompt comes after
    every message of the history. *)
Theorem build_messages_keeps_history_roles
    (system_prompt user_prompt : string) h :
  systems_of (build_messages system_prompt user_prompt (Some h)) =
    mk_message "system" system_prompt :: systems_of h ∧
  others_of (build_messages system_prompt user_prompt (Some h)) =
    others_of h ++ [mk_message "user" user_prompt].
Proof. split; [apply systems_of_build | apply others_of_build]. Qed.

(** Extra X12. Truncating a built message list with a cap that is not
    negative keeps the current user prompt as the last entry. The first
    entry is the last system message of the history when there is one, and
    the built system prompt only when the history has none. *)
Theorem truncate_built_messages (system_prompt user_prompt : string) h n :
  0 ≤ n →
  let out :=
    truncate_conversation_history
      (build_messages system_prompt user_prompt (Some h)) n in
  last out = Some (mk_message "user" user_prompt) ∧
  out !! 0%nat =
    Some (default (mk_message "system" system_prompt) (last (systems_of h))).
Proof.
  intros Hn out. unfold out. rewrite truncate_unfold. split.
  - apply last_app_Some, keep_recent_last; [done|].
    by rewrite others_of_build, last_snoc.
  - unfold system_part. rewrite systems_of_build, last_cons.
    by destruct (last (systems_of h)).
Qed.

Lemma truncate_built_messages_witness :
  0 ≤ 1 ∧
  last (truncate_conversation_history
          (build_messages "sys" "question" (Some sample_history)) 1) =
    Some (mk_message "user" "question") ∧
  truncate_conversation_history
    (build_messages "sys" "question" (Some sample_history)) 1 !! 0%nat =
    Some (default (mk_message "system" "sys") (last (systems_of sample_history))).
Proof.
  split; [lia|].
  apply (truncate_built_messages "sys" "question" sample_history 1). lia.
Defined.

(** Extra X13. Building the messages from a history truncated with a cap of
    at least one gives at most [max_messages + 3] entries: the new system
    prompt, at most one retained system message, at most [max_messages]
    other messages, and the user prompt. *)
Theorem build_truncated_length (system_prompt user_prompt : string) h n :
  1 ≤ n →
  Z.of_nat (length (build_messages system_prompt user_prompt
                      (Some (truncate_conversation_history h n)))) ≤ n + 3.
Proof.
  intros Hn. rewrite build_messages_eq, truncate_unfold.
  cbn [length]. rewrite !length_app. cbn [length].
  assert (Z.of_nat (length (keep_recent n (others_of h))) ≤ n)
    by (apply keep_recent_length_pos; lia).
  assert (length (system_part h) ≤ 1)%nat
    by (unfold system_part; destruct (last _); simpl; lia).
  lia.
Qed.

Lemma build_truncated_length_witness :
  1 ≤ 2 ∧
  Z.of_nat (length (build_messages "sys" "question"
                      (Some (truncate_conversation_history sample_history 2))))
    ≤ 2 + 3.
Proof.
  split; [lia|].
  apply (build_truncated_length "sys" "question" sample_history 2). lia.
Defined.

End pipeline_facts.

Section context_further.
Implicit Types (r : RetrievalResult) (results : list RetrievalResult).

(** Extra X14. For a non-empty list the context is two newlines, 80 dashes
    and then one block per result, joined by two newlines: as many blocks
    as results, the block of the result at position [i] being the one
    numbered [i + 1]. *)
Theorem format_context_blocks_in_order results :
  results ≠ [] →
  ∃ blocks,
    format_context_from_results results =
      ((nl +:+ nl) +:+ str_repeat "-" 80) +:+ str_join (nl +:+ nl) blocks ∧
    length blocks = length results ∧
    ∀ i r, results !! i = Some r → blocks !! i = Some (context_part (S i) r).
Proof.
  intros Hne. exists (imap (λ i r, context_part (S i) r) results).
  split; [by apply format_context_nonempty|].
  split; [apply length_imap|].
  intros i r Hi. by rewrite list_lookup_imap, Hi.
Qed.

Lemma format_context_blocks_in_order_witness :
  [doc_a; doc_b] ≠ [] ∧
  ∃ blocks,
    format_context_from_results [doc_a; doc_b] =
      ((nl +:+ nl) +:+ str_repeat "-" 80) +:+ str_join (nl +:+ nl) blocks ∧
    length blocks = length [doc_a; doc_b] ∧
    ∀ i r, [doc_a; doc_b] !! i = Some r →
           blocks !! i = Some (context_part (S i) r).
Proof.
  assert ([doc_a; doc_b] ≠ []) as H by discriminate.
  split; [exact H|]. exact (format_context_blocks_in_order [doc_a; doc_b] H).
Defined.

(** Extra X15. The sentence for an empty retrieval is returned for the
    empty list only: the context of a non-empty list starts with a newline. *)
Theorem format_context_sentinel_iff results :
  format_context_from_results results = "No relevant context found."
  ↔ results = [].
Proof.
  split; [|by intros ->].
  destruct results as [|r results]; [done|].
  rewrite format_context_nonempty by done.
  unfold nl. rewrite !str_app_cons. discriminate.
Qed.


End context_further.

Section prompt_further.

(** Extra X17. Both templates are well-formed format strings: whatever the
    keyword arguments, formatting them either succeeds or raises [KeyError]
    for one of their own fields, and keyword arguments the template does
    not name are ignored. *)
Theorem templates_only_key_errors (kwargs : gmap string string) (e : py_error) :
  (str_format SYSTEM_PROMPT kwargs = Raise e →
   (e = KeyError "company_name" ∧ kwargs !! "company_name" = None) ∨
   (e = KeyError "context" ∧ kwargs !! "context" = None)) ∧
  (str_format USER_PROMPT kwargs = Raise e →
   e = KeyError "query" ∧ kwargs !! "query" = None) ∧
  (∀ company_name context,
     kwargs !! "company_name" = Some company_name →
     kwargs !! "context" = Some context →
     str_format SYSTEM_PROMPT kwargs =
     Ok (system_prompt_text company_name context)) ∧
  (∀ query,
     kwargs !! "query" = Some query →
     str_format USER_PROMPT kwargs = Ok (user_prompt_text query)).
Proof.
  unfold str_format. rewrite scan_system_prompt, scan_user_prompt.
  split; [|split; [|split]].
  - destruct (kwargs !! "company_name"); [|intros [= <-]; by left].
    destruct (kwargs !! "context"); [done|intros [= <-]; by right].
  - destruct (kwargs !! "query"); [done|by intros [= <-]].
  - by intros company_name context -> ->.
  - by intros query ->.
Qed.

Lemma templates_only_key_errors_witness :
  str_format SYSTEM_PROMPT
    (<["company_name" := "ACME"]> (<["unused" := "x"]> ∅)) =
    Raise (KeyError "context") ∧
  (KeyError "context" = KeyError "company_name" ∧
   (<["company_name" := "ACME"]> (<["unused" := "x"]> ∅) : gmap string string)
     !! "company_name" = None ∨
   KeyError "context" = KeyError "context" ∧
   (<["company_name" := "ACME"]> (<["unused" := "x"]> ∅) : gmap string string)
     !! "context" = None).
Proof.
  destruct (templates_only_key_errors
              (<["company_name" := "ACME"]> (<["unused" := "x"]> ∅))
              (KeyError "context")) as (Hsys & _).
  assert (str_format SYSTEM_PROMPT
            (<["company_name" := "ACME"]> (<["unused" := "x"]> ∅)) =
          Raise (KeyError "context")) as H by (vm_compute; reflexivity).
  split; [exact H|]. exact (Hsys H).
Defined.

End prompt_further.

Section prompt_injective.

Lemma str_length_app (a b : string) :
  String.length (a +:+ b) = (String.length a + String.length b)%nat.
Proof.
  induction a as [|x a IH]; [done|].
  rewrite str_app_cons. cbn [String.length]. by rewrite IH.
Qed.

Lemma str_app_inv_l (p a b : string) : p +:+ a = p +:+ b → a = b.
Proof.
  induction p as [|x p IH]; [done|].
  rewrite !str_app_cons. intros [= H]. by apply IH.
Qed.

Lemma str_app_inv_r (a b t : string) : a +:+ t = b +:+ t → a = b.
Proof.
  revert b. induction a as [|x a IH]; intros [|y b] H.
  - done.
  - apply (f_equal String.length) in H.
    rewrite str_app_nil_l, str_app_cons in H. cbn [String.length] in H.
    rewrite str_length_app in H. lia.
  - apply (f_equal String.length) in H.
    rewrite str_app_nil_l, str_app_cons in H. cbn [String.length] in H.
    rewrite str_length_app in H. lia.
  - rewrite !str_app_cons in H. injection H as -> H. f_equal. by apply IH.
Qed.

(** Extra X18. Nothing of the arguments is lost in the prompts: two
    queries with the same user prompt are the same query, and for one
    company name two contexts with the same system prompt are the same
    context. *)
Theorem prompts_determine_arguments
    (company_name context1 context2 query1 query2 : string) :
  (format_user_prompt query1 = format_user_prompt query2 → query1 = query2) ∧
  (format_system_prompt company_name context1 =
   format_system_prompt company_name context2 → context1 = context2).
Proof.
  unfold format_user_prompt, format_system_prompt, str_format.
  rewrite !scan_user_prompt, !scan_system_prompt.
  split.
  - simplify_map_eq. intros [= H].
    unfold user_prompt_text in H. cbn [concat_strings] in H.
    apply str_app_inv_l in H.
    by apply str_app_inv_r in H.
  - simplify_map_eq. intros [= H].
    unfold system_prompt_text in H. cbn [concat_strings] in H.
    repeat apply str_app_inv_l in H.
    by rewrite !str_app_nil_r in H.
Qed.

Lemma prompts_determine_arguments_witness :
  format_user_prompt "why" = format_user_prompt "why" ∧ "why" = "why".
Proof.
  split; [reflexivity|].
  by apply (prompts_determine_arguments "ACME" "c" "c" "why" "why").
Defined.

End prompt_injective.
